(** * The [wsl2] connection plugin: a shallow embedding and its properties

    Source: [plugins/connection/wsl2.py] (class [Connection]).

    The plugin shells out to [powershell.exe], optionally wrapping the command
    in a PowerShell-Direct script ([ENTER_VM]) or a copy script ([COPY_FILE]).
    Everything it does is an interaction with the operating system, so the
    embedding runs the methods in a monad that threads the connection object
    ([self]), may raise a Python exception, and records every call to the
    outside world in a trace.  The answers of the outside world come from an
    oracle record [World]. *)

From Stdlib Require Import String Ascii List ZArith Bool Lia.
From ExtLib Require Import Structures.Monad.
Import ListNotations.
Import MonadNotation.
Local Open Scope string_scope.
Local Open Scope monad_scope.

(** ** Python strings

    A Python [str] and a Python [bytes] value are both represented by a Rocq
    [string], read as the UTF-8 byte sequence of the value.  On this
    representation Ansible's [to_bytes], [to_text] and [to_native] do not
    change the bytes. *)

Definition text := string.
Definition bytes := string.

(** [cmd : str | bytes], the first argument of [exec_command].  For a value of
    this type the test [isinstance(cmd, (text_type, binary_type))] holds, so
    the [else] branch of the source, for other values, is never taken. *)
Inductive command :=
| CmdStr (s : text)
| CmdBytes (b : bytes).

Definition to_bytes (s : text) : bytes := s.
Definition to_text (b : bytes) : text := b.
Definition to_native (s : text) : text := s.

Definition cmd_to_bytes (c : command) : bytes :=
  match c with CmdStr s => to_bytes s | CmdBytes b => b end.

Definition cmd_to_text (c : command) : text :=
  match c with CmdStr s => s | CmdBytes b => to_text b end.

(** [str(x)] for an optional string: [None] prints as the word None. *)
Definition py_str (x : option string) : string :=
  match x with Some s => s | None => "None" end.

(** Truth value of an optional string: [None] and the empty string are false. *)
Definition truthy (x : option string) : bool :=
  match x with
  | Some EmptyString => false
  | Some _ => true
  | None => false
  end.

(** [a or b] on an optional string. *)
Definition py_or (x : option string) (d : string) : string :=
  if truthy x then py_str x else d.

Definition newline : ascii := ascii_of_nat 10.
Definition nl : string := String newline EmptyString.

(** [s.rstrip("\n")]: drop every trailing newline. *)
Fixpoint rstrip_nl (s : string) : string :=
  match s with
  | EmptyString => EmptyString
  | String c rest =>
      match rstrip_nl rest with
      | EmptyString => if Ascii.eqb c newline then EmptyString else String c EmptyString
      | r => String c r
      end
  end.

(** ** [str.format] with positional fields

    The templates of the plugin only use the fields [{0}] to [{4}].  The model
    reads a template left to right: literal characters are copied, a doubled
    brace is one brace, [{n}] is replaced by the n-th argument.  [None] stands
    for the exception Python raises (lone brace, index out of range) and for
    the field syntax that is not modelled (names, conversions, format
    specifications). *)

Inductive fmt_state :=
| FLit
| FOpen
| FIndex (n : nat)
| FClose.

Definition digit_of (c : ascii) : option nat :=
  let n := nat_of_ascii c in
  if (48 <=? n)%nat && (n <=? 57)%nat then Some (n - 48)%nat else None.

Fixpoint format_from (st : fmt_state) (tpl : string) (args : list string) : option string :=
  match tpl with
  | EmptyString => match st with FLit => Some EmptyString | _ => None end
  | String c rest =>
      match st with
      | FLit =>
          if Ascii.eqb c "{" then format_from FOpen rest args
          else if Ascii.eqb c "}" then format_from FClose rest args
          else option_map (String c) (format_from FLit rest args)
      | FOpen =>
          if Ascii.eqb c "{" then option_map (String c) (format_from FLit rest args)
          else match digit_of c with
               | Some d => format_from (FIndex d) rest args
               | None => None
               end
      | FIndex n =>
          if Ascii.eqb c "}" then
            match nth_error args n with
            | Some a => option_map (append a) (format_from FLit rest args)
            | None => None
            end
          else match digit_of c with
               | Some d => format_from (FIndex (10 * n + d)) rest args
               | None => None
               end
      | FClose =>
          if Ascii.eqb c "}" then option_map (String c) (format_from FLit rest args)
          else None
      end
  end.

Definition format (tpl : string) (args : list string) : option string :=
  format_from FLit tpl args.

(** A triple-quoted literal, line by line: the lines are joined by newlines. *)
Fixpoint join_lines (ls : list string) : string :=
  match ls with
  | [] => EmptyString
  | [l] => l
  | l :: rest => l ++ nl ++ join_lines rest
  end.

Definition ENTER_VM : string := join_lines
  [ "";
    "# $WarningPreference = 'SilentlyContinue'";
    "$secpass = ConvertTo-SecureString -AsPlainText -Force -String '{2}'";
    "$cred = [PSCredential]::new('{1}', $secpass)";
    "$exec_wrapper_str = $input | Out-String";
    "$cmd = [ScriptBlock]::Create(@'";
    "{3}";
    "'@)";
    "$s = New-PSSession -VMName '{0}' -Credential $cred";
    "Invoke-Command -Session $s -InputObject $exec_wrapper_str -ScriptBlock $cmd";
    "$s | Remove-PSSession";
    "" ].

Definition COPY_FILE : string := join_lines
  [ "";
    "$secpass = ConvertTo-SecureString -AsPlainText -Force -String '{2}'";
    "$cred = [PSCredential]::new('{1}', $secpass)";
    "$s = New-PSSession -VMName '{0}' -Credential $cred";
    "Copy-Item -ToSession $s -Path '{3}' -Destination '{4}'";
    "$s | Remove-PSSession";
    "" ].

(** ** Substrings *)

Definition Substring (x s : string) : Prop :=
  exists pre post, s = pre ++ x ++ post.

(** [InOrder [x1; ...; xn] s]: the [xi] occur in [s] one after the other,
    without overlap. *)
Inductive InOrder : list string -> string -> Prop :=
| InOrder_nil s : InOrder [] s
| InOrder_cons x xs pre rest :
    InOrder xs rest -> InOrder (x :: xs) (pre ++ x ++ rest).

(** The text after the prefix [x] of [s], when [x] is a prefix of [s]. *)
Fixpoint strip_prefix (x s : string) : option string :=
  match x with
  | EmptyString => Some s
  | String a x' =>
      match s with
      | EmptyString => None
      | String b s' => if Ascii.eqb a b then strip_prefix x' s' else None
      end
  end.

(** The text after the leftmost occurrence of [x] in [s]. *)
Fixpoint after_first (x s : string) : option string :=
  match strip_prefix x s with
  | Some rest => Some rest
  | None =>
      match s with
      | EmptyString => None
      | String _ s' => after_first x s'
      end
  end.

Definition is_substring (x s : string) : bool :=
  match after_first x s with Some _ => true | None => false end.

(** Greedy search: each string is matched at its leftmost position after the
    previous one. *)
Fixpoint in_order (xs : list string) (s : string) : bool :=
  match xs with
  | [] => true
  | x :: xs' =>
      match after_first x s with
      | Some rest => in_order xs' rest
      | None => false
      end
  end.

(** ** Exceptions, events and the outside world *)

Inductive exn :=
| AnsibleError (msg : string)
| AnsibleFileNotFound (msg : string)
| OSError (msg : string)
| SameFileError (src dst : string)
| FormatError.

(** [isinstance(e, shutil.Error)]: of what [shutil.copyfile] raises, only
    [SameFileError] derives from [shutil.Error]. *)
Definition is_shutil_Error (e : exn) : bool :=
  match e with SameFileError _ _ => true | _ => false end.

(** [isinstance(e, IOError)]; [IOError] is [OSError], the base class of
    [shutil.Error]. *)
Definition is_IOError (e : exn) : bool :=
  match e with
  | OSError _ | SameFileError _ _ => true
  | _ => false
  end.

Definition exn_message (e : exn) : string :=
  match e with
  | AnsibleError m | AnsibleFileNotFound m | OSError m => m
  | SameFileError src dst => src ++ " and " ++ dst ++ " are the same file"
  | FormatError => "format"
  end.

(** [subprocess.PIPE] is the integer -1; a descriptor is a non-negative
    integer. *)
Definition PIPE : Z := (-1)%Z.

Inductive popen_cmd :=
| CmdLine (b : bytes)
| ArgList (l : list string).

(** The arguments of one [subprocess.Popen] call.  [None] is an argument left
    out (or passed as [None]). *)
Record PopenArgs := mkPopen {
  popen_args : popen_cmd;
  popen_shell : bool;
  popen_executable : option string;
  popen_cwd : option string;
  popen_stdin : option Z;
  popen_stdout : option Z;
  popen_stderr : option Z;
  popen_encoding : option string
}.

Inductive verbosity := lvl_v | lvl_vv | lvl_vvv | lvl_vvvvv | lvl_vvvvvv | lvl_debug.

(** A value interpolated into a log message. *)
Inductive logval :=
| LNone
| LStr (s : string)
| LBytes (b : bytes).

Definition log_opt (x : option string) : logval :=
  match x with Some s => LStr s | None => LNone end.

Definition log_opt_bytes (x : option bytes) : logval :=
  match x with Some b => LBytes b | None => LNone end.

Inductive event :=
| EvDisplay (lvl : verbosity) (msg : string) (vals : list logval) (host : option string)
| EvWhich (name : string)
| EvPathExists (p : bytes)
| EvOpenPty (r : string + Z * Z)
| EvPopen (a : PopenArgs)
| EvCommunicate (a : PopenArgs) (input : option bytes) (timeout : option Z)
| EvClose (fd : Z)
| EvCopyfile (src dst : bytes).

(** The outside world, as the plugin sees it during one call. *)
Record World := mkWorld {
  (** [shutil.which] *)
  shutil_which : string -> option string;
  (** [os.path.exists] *)
  os_path_exists : bytes -> bool;
  (** [pty.openpty]: the message of the [OSError], or (master, slave) *)
  pty_openpty : string + Z * Z;
  (** [subprocess.Popen]: the message of the [OSError] when no child is
      created *)
  spawn : PopenArgs -> option string;
  (** what [communicate] collects from the child: return code, stdout,
      stderr *)
  child : PopenArgs -> option bytes -> Z * bytes * bytes;
  (** [os.path.samefile], [False] where it raises *)
  samefile : bytes -> bytes -> bool;
  (** opening and copying in [shutil.copyfile]: the message of the
      [OSError], if any *)
  copy_contents : bytes -> bytes -> option string
}.

(** ** The connection object *)

Record BecomeBase := mkBecome { expect_prompt : bool }.

Record PlayContext := mkPlayContext {
  remote_user : option string;
  password : option string;
  remote_addr : option string;
  pc_executable : option string
}.

(** The options of [DOCUMENTATION], read with [get_option]. *)
Record Options := mkOptions {
  opt_remote_addr : option string;
  vm_name : option string;
  opt_remote_user : option string;
  remote_password : option string;
  operation_timeout : Z;
  configuration_name : string;
  pipelining : bool
}.

Record Connection := mkConnection {
  _connected : bool;
  cwd : option string;
  become : option BecomeBase;
  _play_context : PlayContext;
  options : Options
}.

Definition set_connected (b : bool) (self : Connection) : Connection :=
  mkConnection b (cwd self) (become self) (_play_context self) (options self).

Definition set_operation_timeout (t : Z) (o : Options) : Options :=
  mkOptions (opt_remote_addr o) (vm_name o) (opt_remote_user o)
            (remote_password o) t (configuration_name o) (pipelining o).

Definition with_operation_timeout (t : Z) (self : Connection) : Connection :=
  mkConnection (_connected self) (cwd self) (become self) (_play_context self)
               (set_operation_timeout t (options self)).

(** ** The monad of a method call

    A computation takes [self] and yields a value or an exception, the
    updated [self], and the events it caused.  The events before an exception
    are kept. *)

Definition Run (A : Type) : Type :=
  Connection -> (exn + A) * Connection * list event.

#[local] Instance Monad_Run : Monad Run := {
  ret := fun _ a self => (inr a, self, []);
  bind := fun _ _ m k self =>
    match m self with
    | (inl e, self1, t1) => (inl e, self1, t1)
    | (inr a, self1, t1) =>
        match k a self1 with
        | (r, self2, t2) => (r, self2, (t1 ++ t2)%list)
        end
    end
}.

Definition raise {A : Type} (e : exn) : Run A :=
  fun self => (inl e, self, []).

Definition emit (e : event) : Run unit :=
  fun self => (inr tt, self, [e]).

Definition get_self : Run Connection :=
  fun self => (inr self, self, []).

Definition put_self (self' : Connection) : Run unit :=
  fun _ => (inr tt, self', []).

(** [try: body except <cls>: handler]: the handlers are tried in order. *)
Definition try_except {A : Type} (body : Run A)
    (handlers : list ((exn -> bool) * (exn -> Run A))) : Run A :=
  fun self =>
    match body self with
    | (inl e, self1, t1) =>
        match find (fun h => fst h e) handlers with
        | Some h =>
            match snd h e self1 with
            | (r, self2, t2) => (r, self2, (t1 ++ t2)%list)
            end
        | None => (inl e, self1, t1)
        end
    | r => r
    end.

Definition result (A : Type) (r : (exn + A) * Connection * list event) : exn + A :=
  fst (fst r).
Definition final (A : Type) (r : (exn + A) * Connection * list event) : Connection :=
  snd (fst r).
Definition trace (A : Type) (r : (exn + A) * Connection * list event) : list event :=
  snd r.
Arguments result {A} r.
Arguments final {A} r.
Arguments trace {A} r.

(** Projections of a trace. *)
Definition is_display (e : event) : bool :=
  match e with EvDisplay _ _ _ _ => true | _ => false end.

(** What the call did to the outside world: everything but the log. *)
Definition os_events (t : list event) : list event :=
  filter (fun e => negb (is_display e)) t.

Fixpoint popen_calls (t : list event) : list PopenArgs :=
  match t with
  | [] => []
  | EvPopen a :: t' => a :: popen_calls t'
  | _ :: t' => popen_calls t'
  end.

Fixpoint closed_fds (t : list event) : list Z :=
  match t with
  | [] => []
  | EvClose fd :: t' => fd :: closed_fds t'
  | _ :: t' => closed_fds t'
  end.

Fixpoint pty_fds (t : list event) : list Z :=
  match t with
  | [] => []
  | EvOpenPty (inr (m, s)) :: t' => m :: s :: pty_fds t'
  | _ :: t' => pty_fds t'
  end.

Fixpoint communicate_timeouts (t : list event) : list (option Z) :=
  match t with
  | [] => []
  | EvCommunicate _ _ tm :: t' => tm :: communicate_timeouts t'
  | _ :: t' => communicate_timeouts t'
  end.

Fixpoint copies (t : list event) : list (bytes * bytes) :=
  match t with
  | [] => []
  | EvCopyfile s d :: t' => (s, d) :: copies t'
  | _ :: t' => copies t'
  end.

(** ** The plugin *)

Section Plugin.

Variable w : World.

(** *** Calls to the outside world *)

Definition display (lvl : verbosity) (msg : string) (vals : list logval)
    (host : option string) : Run unit :=
  emit (EvDisplay lvl msg vals host).

Definition which (name : string) : Run (option string) :=
  fun self => (inr (shutil_which w name), self, [EvWhich name]).

Definition path_exists (p : bytes) : Run bool :=
  fun self => (inr (os_path_exists w p), self, [EvPathExists p]).

Definition openpty : Run (Z * Z) :=
  fun self =>
    match pty_openpty w with
    | inl m => (inl (OSError m), self, [EvOpenPty (inl m)])
    | inr fds => (inr fds, self, [EvOpenPty (inr fds)])
    end.

(** [subprocess.Popen(...)]: the process object is identified with the
    arguments it was created from. *)
Definition Popen (a : PopenArgs) : Run PopenArgs :=
  fun self =>
    match spawn w a with
    | Some m => (inl (OSError m), self, [EvPopen a])
    | None => (inr a, self, [EvPopen a])
    end.

(** [p.communicate(input)]: no timeout is passed.  Yields the return code
    with stdout and stderr. *)
Definition communicate (p : PopenArgs) (input : option bytes) : Run (Z * bytes * bytes) :=
  fun self => (inr (child w p input), self, [EvCommunicate p input None]).

Definition os_close (fd : Z) : Run unit :=
  emit (EvClose fd).

(** [shutil.copyfile(src, dst)]: the same-file test comes first. *)
Definition copyfile (src dst : bytes) : Run unit :=
  fun self =>
    if samefile w src dst then (inl (SameFileError src dst), self, [EvCopyfile src dst])
    else match copy_contents w src dst with
         | Some m => (inl (OSError m), self, [EvCopyfile src dst])
         | None => (inr tt, self, [EvCopyfile src dst])
         end.

Definition str_format (tpl : string) (args : list string) : Run string :=
  match format tpl args with
  | Some s => ret s
  | None => raise FormatError
  end.

(** *** Methods *)

Definition _connect : Run unit :=
  self <- get_self ;;
  if negb (_connected self) then
    display lvl_vvv "ESTABLISH LOCAL CONNECTION FOR USER: {0}"
            [log_opt (remote_user (_play_context self))]
            (remote_addr (_play_context self)) ;;
    put_self (set_connected true self)
  else ret tt.

(** [exec_command], [put_file] and [fetch_file] of the base class, called
    through [super()], have an empty body under the [ensure_connect]
    decorator of the host framework: connect first when not connected. *)
Definition ensure_connect : Run unit :=
  self <- get_self ;;
  if negb (_connected self) then _connect else ret tt.

(** [shutil.which("powershell.exe") or "powershell.exe"] *)
Definition resolve_executable : string :=
  py_or (shutil_which w "powershell.exe") "powershell.exe".

Definition wants_pty (self : Connection) (sudoable : bool) : bool :=
  sudoable
  && match become self with
     | Some b => expect_prompt b
     | None => false
     end
  && negb (pipelining (options self)).

Definition exec_command (cmd : command) (in_data : option bytes) (sudoable : bool)
    : Run (Z * bytes * bytes) :=
  self <- get_self ;;
  let pc := _play_context self in
  display lvl_vvvvv "CMD: {}" [LStr (cmd_to_text cmd)] None ;;
  display lvl_vv "EXE: {}" [log_opt (pc_executable pc)] None ;;
  display lvl_vv "VM: {}" [log_opt (vm_name (options self))] None ;;
  display lvl_vvvvvv "IN: {}" [log_opt_bytes in_data] None ;;
  ensure_connect ;;
  display lvl_debug "in local.exec_command()" [] None ;;
  found <- which "powershell.exe" ;;
  let executable := py_or found "powershell.exe" in
  display lvl_vv "SHELL: {}" [LStr (to_text executable)] None ;;
  present <- path_exists (to_bytes executable) ;;
  if negb present then
    raise (AnsibleError ("failed to find the executable specified " ++ executable
             ++ ". Please verify if the executable exists and re-try."))
  else
  display lvl_vvv "EXEC {0}" [LStr (cmd_to_text cmd)] (remote_addr pc) ;;
  display lvl_debug "opening command with Popen()" [] None ;;
  let cmd := cmd_to_bytes cmd in
  ' (master, stdin) <-
    (if wants_pty self sudoable then
       try_except
         (fds <- openpty ;; ret (Some (fst fds), snd fds))
         [(is_IOError,
           fun e => display lvl_debug "Unable to open pty: %s" [LStr (to_native (exn_message e))] None ;;
                    ret (None, PIPE))]
     else ret (None, PIPE)) ;;
  cmd <-
    (if truthy (vm_name (options self)) then
       connect_script <- str_format ENTER_VM
         [py_str (vm_name (options self)); py_str (remote_user pc);
          py_str (password pc); to_text cmd] ;;
       display lvl_vv connect_script [] None ;;
       ret (to_bytes connect_script)
     else ret cmd) ;;
  p <- Popen (mkPopen (CmdLine cmd) true (Some executable) (cwd self)
                      (Some stdin) (Some PIPE) (Some PIPE) None) ;;
  match master with
  | Some _ => os_close stdin
  | None => ret tt
  end ;;
  display lvl_debug "done running command with Popen()" [] None ;;
  display lvl_debug "getting output with communicate()" [] None ;;
  ' (returncode, stdout, stderr) <- communicate p in_data ;;
  display lvl_v (to_text stdout) [] None ;;
  display lvl_v (to_text stderr) [] None ;;
  display lvl_debug "done communicating" [] None ;;
  match master with
  | Some m => if (m =? 0)%Z then ret tt else os_close m
  | None => ret tt
  end ;;
  display lvl_debug "done with local.exec_command()" [] None ;;
  ret (returncode, stdout, stderr).

Definition put_file (in_path out_path : text) : Run unit :=
  ensure_connect ;;
  present <- path_exists (to_bytes in_path) ;;
  if negb present then
    raise (AnsibleFileNotFound ("file or module does not exist: " ++ to_native in_path))
  else
  p <- Popen (mkPopen (ArgList ["wslpath"; "-w"; in_path]) false None None
                      None (Some PIPE) (Some PIPE) (Some "UTF8")) ;;
  ' (_, stdout, _) <- communicate p None ;;
  let in_path := stdout in
  self <- get_self ;;
  let pc := _play_context self in
  display lvl_vvv "PUT {0} TO {1}" [LStr in_path; LStr out_path] (remote_addr pc) ;;
  if truthy (vm_name (options self)) then
    copy_script <- str_format COPY_FILE
      [py_str (vm_name (options self)); py_str (remote_user pc);
       py_str (password pc); rstrip_nl (to_text in_path); to_text out_path] ;;
    display lvl_vv copy_script [] None ;;
    let cmd := to_bytes copy_script in
    found <- which "powershell.exe" ;;
    let executable := py_or found "powershell.exe" in
    display lvl_vv "SHELL: {}" [LStr (to_text executable)] None ;;
    p <- Popen (mkPopen (CmdLine cmd) true (Some executable) (cwd self)
                        None (Some PIPE) (Some PIPE) None) ;;
    display lvl_debug "getting output with communicate()" [] None ;;
    ' (_, stdout, stderr) <- communicate p None ;;
    display lvl_v (to_text stdout) [] None ;;
    display lvl_v (to_text stderr) [] None ;;
    display lvl_debug "done communicating" [] None ;;
    ret tt
  else
    try_except
      (copyfile (to_bytes in_path) (to_bytes out_path))
      [(is_shutil_Error,
        fun _ => raise (AnsibleError ("failed to copy: " ++ to_native in_path ++ " and "
                                        ++ to_native out_path ++ " are the same")));
       (is_IOError,
        fun e => raise (AnsibleError ("failed to transfer file to " ++ to_native out_path
                                        ++ ": " ++ to_native (exn_message e))))].

Definition fetch_file (in_path out_path : text) : Run unit :=
  ensure_connect ;;
  self <- get_self ;;
  display lvl_vvv "FETCH {0} TO {1}" [LStr in_path; LStr out_path]
          (remote_addr (_play_context self)) ;;
  put_file in_path out_path.

Definition close : Run unit :=
  self <- get_self ;;
  put_self (set_connected false self).

End Plugin.

(** ** Derived notions used in the statements *)

(** The standard input the child of [exec_command] is given: the slave side
    of a pty when one is wanted and could be opened, a pipe otherwise. *)
Definition exec_stdin (w : World) (self : Connection) (sudoable : bool) : Z :=
  if wants_pty self sudoable then
    match pty_openpty w with
    | inr (_, slave) => slave
    | inl _ => PIPE
    end
  else PIPE.

(** The command line [exec_command] hands to [Popen]. *)
Definition exec_cmdline (self : Connection) (cmd : command) : option bytes :=
  if truthy (vm_name (options self)) then
    option_map to_bytes
      (format ENTER_VM
         [py_str (vm_name (options self)); py_str (remote_user (_play_context self));
          py_str (password (_play_context self)); to_text (cmd_to_bytes cmd)])
  else Some (cmd_to_bytes cmd).

Definition exec_popen (w : World) (self : Connection) (sudoable : bool) (line : bytes)
    : PopenArgs :=
  mkPopen (CmdLine line) true (Some (resolve_executable w)) (cwd self)
          (Some (exec_stdin w self sudoable)) (Some PIPE) (Some PIPE) None.

(** The path-translation helper started by [put_file], and what it prints. *)
Definition wslpath_popen (in_path : text) : PopenArgs :=
  mkPopen (ArgList ["wslpath"; "-w"; in_path]) false None None
          None (Some PIPE) (Some PIPE) (Some "UTF8").

Definition wslpath_stdout (w : World) (in_path : text) : text :=
  snd (fst (child w (wslpath_popen in_path) None)).

(** The copy script [put_file] hands to [Popen] when a machine is configured. *)
Definition copy_popen (w : World) (self : Connection) (script : string) : PopenArgs :=
  mkPopen (CmdLine (to_bytes script)) true (Some (resolve_executable w)) (cwd self)
          None (Some PIPE) (Some PIPE) None.

(** [communicate] calls of a trace: the process and the input it is fed. *)
Fixpoint communicate_calls (t : list event) : list (PopenArgs * option bytes) :=
  match t with
  | [] => []
  | EvCommunicate a i _ :: t' => (a, i) :: communicate_calls t'
  | _ :: t' => communicate_calls t'
  end.

(** How often [pty.openpty] is called. *)
Fixpoint openpty_attempts (t : list event) : nat :=
  match t with
  | [] => 0
  | EvOpenPty _ :: t' => S (openpty_attempts t')
  | _ :: t' => openpty_attempts t'
  end.

Definition verbosity_index (l : verbosity) : nat :=
  match l with
  | lvl_v => 1 | lvl_vv => 2 | lvl_vvv => 3 | lvl_vvvvv => 5 | lvl_vvvvvv => 6
  | lvl_debug => 0
  end.

(** The messages logged at one level. *)
Fixpoint logged (lvl : verbosity) (t : list event) : list string :=
  match t with
  | [] => []
  | EvDisplay l msg _ _ :: t' =>
      if Nat.eqb (verbosity_index l) (verbosity_index lvl) then msg :: logged lvl t'
      else logged lvl t'
  | _ :: t' => logged lvl t'
  end.

(** [k] newlines. *)
Fixpoint newlines (k : nat) : string :=
  match k with
  | O => EmptyString
  | S k' => String newline (newlines k')
  end.

Fixpoint ends_with_newline (s : string) : bool :=
  match s with
  | EmptyString => false
  | String c EmptyString => Ascii.eqb c newline
  | String _ rest => ends_with_newline rest
  end.

(** The message of the error [exec_command] raises when PowerShell is not
    found. *)
Definition executable_missing (executable : string) : exn :=
  AnsibleError ("failed to find the executable specified " ++ executable
                ++ ". Please verify if the executable exists and re-try.").

(** ** Concrete worlds and connections for the examples *)

(** PowerShell is on the path, every path exists, a pty can be opened, every
    child starts and prints [hi]. *)
Definition world_ok : World := mkWorld
  (fun _ => Some "/mnt/c/Windows/System32/WindowsPowerShell/v1.0/powershell.exe")
  (fun _ => true)
  (inr (3, 4)%Z)
  (fun _ => None)
  (fun _ _ => (0%Z, "hi" ++ nl, ""))
  (fun _ _ => false)
  (fun _ _ => None).

Definition play_bob : PlayContext :=
  mkPlayContext (Some "bob") (Some "pw") (Some "localhost") None.

Definition options_local : Options :=
  mkOptions (Some "localhost") None (Some "bob") (Some "pw") 20 "Microsoft.PowerShell" false.

Definition options_myvm : Options :=
  mkOptions (Some "localhost") (Some "myvm") (Some "bob") (Some "pw") 20
            "Microsoft.PowerShell" false.

Definition conn_local : Connection :=
  mkConnection false None None play_bob options_local.

Definition conn_myvm : Connection :=
  mkConnection false None None play_bob options_myvm.

(** A connection whose become plugin waits for a password prompt. *)
Definition conn_become : Connection :=
  mkConnection false None (Some (mkBecome true)) play_bob options_local.

(** The script of the scenario: machine [myvm], user [bob], password [pw],
    command [dir]. *)
Definition script_myvm : string :=
  py_str (format ENTER_VM ["myvm"; "bob"; "pw"; "dir"]).

(** A pty cannot be opened. *)
Definition world_no_pty : World := mkWorld
  (shutil_which world_ok) (os_path_exists world_ok)
  (inl "out of pty devices")
  (spawn world_ok) (child world_ok) (samefile world_ok) (copy_contents world_ok).

(** A pty is opened, then the child cannot be started. *)
Definition world_spawn_fails : World := mkWorld
  (shutil_which world_ok) (os_path_exists world_ok) (pty_openpty world_ok)
  (fun _ => Some "[Errno 13] Permission denied")
  (child world_ok) (samefile world_ok) (copy_contents world_ok).

(** [pty.openpty] hands out descriptor 0 as the master side (standard input
    was closed before). *)
Definition world_master_zero : World := mkWorld
  (shutil_which world_ok) (os_path_exists world_ok) (inr (0, 4)%Z)
  (spawn world_ok) (child world_ok) (samefile world_ok) (copy_contents world_ok).

(** Nothing exists. *)
Definition world_empty : World := mkWorld
  (fun _ => None) (fun _ => false) (inl "out of pty devices")
  (fun _ => None) (fun _ _ => (0%Z, "", "")) (fun _ _ => false)
  (fun _ _ => Some "[Errno 2] No such file or directory").

(** A WSL host where only [/tmp/a] exists: two paths are the same file when
    both are [/tmp/a], and [wslpath -w] prints the Windows form of the path,
    newline included. *)
Definition world_tmp_a : World := mkWorld
  (fun _ => None)
  (fun p => String.eqb p "/tmp/a")
  (inl "out of pty devices")
  (fun _ => None)
  (fun _ _ => (0%Z, "\\wsl.localhost\Ubuntu\tmp\a" ++ nl, ""))
  (fun a b => String.eqb a "/tmp/a" && String.eqb b "/tmp/a")
  (fun src _ => if String.eqb src "/tmp/a" then None
                else Some "[Errno 2] No such file or directory").

(** A host where only [/tmp/a] exists and the helper prints the path it is
    given, followed by a newline. *)
Definition world_echo : World := mkWorld
  (fun _ => None)
  (fun p => String.eqb p "/tmp/a")
  (inl "out of pty devices")
  (fun _ => None)
  (fun a _ => match popen_args a with
              | ArgList [_; _; path] => (0%Z, path ++ nl, "")
              | _ => (0%Z, "", "")
              end)
  (fun a b => String.eqb a "/tmp/a" && String.eqb b "/tmp/a")
  (fun src _ => if String.eqb src "/tmp/a" then None
                else Some "[Errno 2] No such file or directory").

(** The copy child exits with an error. *)
Definition world_copy_denied : World := mkWorld
  (shutil_which world_ok) (os_path_exists world_ok) (pty_openpty world_ok)
  (spawn world_ok)
  (fun a _ => match popen_args a with
              | ArgList _ => (0%Z, "C:\tmp\a" ++ nl, "")
              | CmdLine _ => (1%Z, "", "Copy-Item : Access is denied")
              end)
  (samefile world_ok) (copy_contents world_ok).

(** [wslpath] is not installed. *)
Definition world_no_wslpath : World := mkWorld
  (shutil_which world_ok) (os_path_exists world_ok) (pty_openpty world_ok)
  (fun a => match popen_args a with
            | ArgList _ => Some "[Errno 2] No such file or directory: 'wslpath'"
            | CmdLine _ => None
            end)
  (child world_ok) (samefile world_ok) (copy_contents world_ok).

(** The destination cannot be written. *)
Definition world_read_only : World := mkWorld
  (shutil_which world_ok) (os_path_exists world_ok) (pty_openpty world_ok)
  (spawn world_ok) (fun _ _ => (0%Z, "C:\tmp\a" ++ nl, "")) (samefile world_ok)
  (fun _ _ => Some "[Errno 30] Read-only file system").

(** * Properties *)

(** ** Strings *)

Lemma append_assoc_s (a b c : string) : (a ++ b) ++ c = a ++ b ++ c.
Proof.
  induction a as [|x a IH]; simpl; [reflexivity | now rewrite IH].
Qed.

Lemma append_nil_r (a : string) : a ++ "" = a.
Proof.
  induction a as [|x a IH]; simpl; [reflexivity | now rewrite IH].
Qed.

Lemma length_append_s (a b : string) :
  String.length (a ++ b) = (String.length a + String.length b)%nat.
Proof.
  induction a as [|x a IH]; simpl; [reflexivity | now rewrite IH].
Qed.

Lemma Substring_middle (pre x post : string) : Substring x (pre ++ x ++ post).
Proof. now exists pre, post. Qed.

Lemma Substring_append_l (p x s : string) : Substring x s -> Substring x (p ++ s).
Proof.
  intros [pre [post ->]]. exists (p ++ pre), post.
  now rewrite append_assoc_s.
Qed.

Lemma strip_prefix_sound (x : string) :
  forall s rest, strip_prefix x s = Some rest -> s = x ++ rest.
Proof.
  induction x as [|a x IH]; intros s rest H; simpl in *.
  - now inversion H.
  - destruct s as [|b s]; [discriminate|].
    destruct (Ascii.eqb_spec a b) as [->|]; [|discriminate].
    now rewrite (IH _ _ H).
Qed.

Lemma strip_prefix_append (x rest : string) : strip_prefix x (x ++ rest) = Some rest.
Proof.
  induction x as [|a x IH]; simpl; [reflexivity|].
  now rewrite Ascii.eqb_refl.
Qed.

Lemma after_first_eq (x s : string) :
  after_first x s =
  match strip_prefix x s with
  | Some rest => Some rest
  | None => match s with
            | EmptyString => None
            | String _ s' => after_first x s'
            end
  end.
Proof. destruct s; reflexivity. Qed.

Lemma after_first_sound (x : string) :
  forall s rest, after_first x s = Some rest -> exists pre, s = pre ++ x ++ rest.
Proof.
  induction s as [|c s IH]; intros rest H; rewrite after_first_eq in H.
  - destruct (strip_prefix x "") eqn:E; [|discriminate].
    inversion H; subst. exists "". exact (strip_prefix_sound _ _ _ E).
  - destruct (strip_prefix x (String c s)) eqn:E.
    + inversion H; subst. exists "". exact (strip_prefix_sound _ _ _ E).
    + destruct (IH _ H) as [pre ->]. now exists (String c pre).
Qed.

(** Two ways to cut one string: the shorter head leaves the longer tail. *)
Lemma append_cut (a : string) :
  forall b r rest, a ++ r = b ++ rest -> (String.length a <= String.length b)%nat ->
                   exists q, r = q ++ rest.
Proof.
  induction a as [|x a IH]; intros b r rest H L; simpl in *.
  - now exists b.
  - destruct b as [|y b]; simpl in *; [lia|].
    inversion H; subst. apply (IH b); [assumption | lia].
Qed.

Lemma after_first_complete (x rest : string) :
  forall pre, exists q, after_first x (pre ++ x ++ rest) = Some (q ++ rest).
Proof.
  induction pre as [|c pre IH]; rewrite after_first_eq.
  - exists "". simpl. now rewrite strip_prefix_append.
  - destruct (strip_prefix x (String c pre ++ x ++ rest)) eqn:E.
    + apply strip_prefix_sound in E.
      rewrite <- append_assoc_s in E. symmetry in E.
      destruct (append_cut x (String c pre ++ x) s rest E) as [q ->].
      * rewrite length_append_s. lia.
      * now exists q.
    + exact IH.
Qed.

Lemma InOrder_append_l (xs : list string) (q s : string) :
  InOrder xs s -> InOrder xs (q ++ s).
Proof.
  intros H. destruct H as [s | x xs pre rest H].
  - constructor.
  - rewrite <- append_assoc_s. now constructor.
Qed.

Lemma in_order_sound (xs : list string) :
  forall s, in_order xs s = true -> InOrder xs s.
Proof.
  induction xs as [|x xs IH]; intros s H; [constructor|].
  simpl in H. destruct (after_first x s) as [rest|] eqn:E; [|discriminate].
  destruct (after_first_sound _ _ _ E) as [pre ->].
  constructor. now apply IH.
Qed.

Lemma in_order_complete (xs : list string) :
  forall s, InOrder xs s -> in_order xs s = true.
Proof.
  induction xs as [|x xs IH]; intros s H; [reflexivity|].
  inversion H as [|x' xs' pre rest Hrest]; subst. simpl.
  destruct (after_first_complete x rest pre) as [q ->].
  apply IH. now apply InOrder_append_l.
Qed.

(** ** The two script templates *)

Lemma format_ENTER_VM (vm user pw cmd : string) :
  format ENTER_VM [vm; user; pw; cmd] =
  Some (nl ++ "# $WarningPreference = 'SilentlyContinue'" ++ nl
        ++ "$secpass = ConvertTo-SecureString -AsPlainText -Force -String '" ++ pw
        ++ "'" ++ nl ++ "$cred = [PSCredential]::new('" ++ user
        ++ "', $secpass)" ++ nl ++ "$exec_wrapper_str = $input | Out-String" ++ nl
        ++ "$cmd = [ScriptBlock]::Create(@'" ++ nl ++ cmd
        ++ nl ++ "'@)" ++ nl ++ "$s = New-PSSession -VMName '" ++ vm
        ++ "' -Credential $cred" ++ nl
        ++ "Invoke-Command -Session $s -InputObject $exec_wrapper_str -ScriptBlock $cmd" ++ nl
        ++ "$s | Remove-PSSession" ++ nl).
Proof. reflexivity. Qed.

Lemma format_COPY_FILE (vm user pw src dst : string) :
  format COPY_FILE [vm; user; pw; src; dst] =
  Some (nl ++ "$secpass = ConvertTo-SecureString -AsPlainText -Force -String '" ++ pw
        ++ "'" ++ nl ++ "$cred = [PSCredential]::new('" ++ user
        ++ "', $secpass)" ++ nl ++ "$s = New-PSSession -VMName '" ++ vm
        ++ "' -Credential $cred" ++ nl ++ "Copy-Item -ToSession $s -Path '" ++ src
        ++ "' -Destination '" ++ dst ++ "'" ++ nl
        ++ "$s | Remove-PSSession" ++ nl).
Proof. reflexivity. Qed.

(** ** Running a call *)

Ltac unfold_run :=
  unfold fetch_file in *;
  unfold exec_command, put_file, ensure_connect, _connect, str_format,
    display, which, path_exists, openpty, Popen, communicate, os_close, copyfile,
    try_except, emit, raise, get_self, put_self, result, final, trace in *.

Ltac case_world_step :=
  match goal with
  | |- context [match pty_openpty ?w with _ => _ end] =>
      destruct (pty_openpty w) as [? | [? ?]] eqn:?
  | |- context [match spawn ?w ?a with _ => _ end] =>
      destruct (spawn w a) eqn:?
  | |- context [child ?w ?a ?i] =>
      destruct (child w a i) as [[? ?] ?] eqn:?
  | |- context [if (?m =? 0)%Z then _ else _] =>
      destruct (m =? 0)%Z eqn:?
  | |- context [if samefile ?w ?a ?b then _ else _] =>
      destruct (samefile w a b) eqn:?
  | |- context [match copy_contents ?w ?a ?b with _ => _ end] =>
      destruct (copy_contents w a b) eqn:?
  end.

Ltac case_world := repeat (case_world_step; cbn).

#[local] Arguments format : simpl never.
#[local] Arguments py_or : simpl never.
#[local] Arguments py_str : simpl never.
#[local] Arguments wants_pty : simpl never.
#[local] Arguments truthy : simpl never.
#[local] Arguments to_bytes : simpl never.
#[local] Arguments to_text : simpl never.
#[local] Arguments to_native : simpl never.
#[local] Arguments cmd_to_bytes : simpl never.
#[local] Arguments cmd_to_text : simpl never.
#[local] Arguments rstrip_nl : simpl never.
#[local] Arguments append : simpl never.
#[local] Arguments Z.eqb : simpl never.
#[local] Arguments ENTER_VM : simpl never.
#[local] Arguments COPY_FILE : simpl never.

Lemma exec_cmdline_total (self : Connection) (cmd : command) :
  exists line, exec_cmdline self cmd = Some line.
Proof.
  unfold exec_cmdline. destruct (truthy _); [|eauto].
  rewrite format_ENTER_VM. unfold option_map. eauto.
Qed.

Lemma exec_command_popen_calls (w : World) (self : Connection) (cmd : command)
    (in_data : option bytes) (sudoable : bool) (line : bytes) :
  os_path_exists w (to_bytes (resolve_executable w)) = true ->
  exec_cmdline self cmd = Some line ->
  popen_calls (trace (exec_command w cmd in_data sudoable self)) =
  [exec_popen w self sudoable line].
Proof.
  intros Hexe Hline.
  unfold exec_popen, exec_stdin, exec_cmdline, resolve_executable in *.
  destruct self as [conn wd bec pc opts]. unfold_run. cbn in *.
  destruct conn; cbn; rewrite Hexe; cbn.
  all: destruct (wants_pty _ _); cbn.
  all: destruct (truthy (vm_name opts)); cbn in *.
  all: try (destruct (format ENTER_VM _); cbn in * ).
  all: inversion Hline; subst; clear Hline.
  all: case_world.
  all: reflexivity.
Qed.

Lemma Substring_head (x post : string) : Substring x (x ++ post).
Proof. now exists "", post. Qed.

(** Walk down a right-nested concatenation to the piece looked for. *)
Ltac find_substring :=
  first [ apply Substring_head | apply Substring_append_l; find_substring ].

Lemma truthy_Some (V : string) : V <> "" -> truthy (Some V) = true.
Proof. destruct V; [congruence | reflexivity]. Qed.

(** ** Claims about [exec_command] *)

(** C1. With no virtual machine configured (and [powershell.exe] found, the
    precondition of the call), [exec_command] calls [Popen] exactly once, and
    the command line of that call is the command itself as bytes: no script
    is wrapped around it. *)
Theorem exec_command_direct_spawn (w : World) (self : Connection) (cmd : command)
    (in_data : option bytes) (sudoable : bool) :
  truthy (vm_name (options self)) = false ->
  os_path_exists w (to_bytes (resolve_executable w)) = true ->
  popen_calls (trace (exec_command w cmd in_data sudoable self)) =
  [mkPopen (CmdLine (cmd_to_bytes cmd)) true (Some (resolve_executable w)) (cwd self)
           (Some (exec_stdin w self sudoable)) (Some PIPE) (Some PIPE) None].
Proof.
  intros Hvm Hexe.
  apply exec_command_popen_calls; [assumption|].
  unfold exec_cmdline. now rewrite Hvm.
Qed.

Lemma exec_command_direct_spawn_witness :
  popen_calls (trace (exec_command world_ok (CmdStr "echo hi") None true conn_local)) =
  [mkPopen (CmdLine "echo hi") true
           (Some "/mnt/c/Windows/System32/WindowsPowerShell/v1.0/powershell.exe")
           None (Some PIPE) (Some PIPE) (Some PIPE) None].
Proof.
  apply (exec_command_direct_spawn world_ok conn_local (CmdStr "echo hi") None true);
    reflexivity.
Defined.

(** C2. With a virtual machine [V] configured, the one [Popen] call of
    [exec_command] gets the script composed from [ENTER_VM], and that script
    contains [V], the remote user and the text of the command. *)
Theorem exec_command_vm_script (w : World) (self : Connection) (cmd : command)
    (in_data : option bytes) (sudoable : bool) (V : string) :
  vm_name (options self) = Some V ->
  V <> "" ->
  os_path_exists w (to_bytes (resolve_executable w)) = true ->
  exists script,
    format ENTER_VM [V; py_str (remote_user (_play_context self));
                     py_str (password (_play_context self)); cmd_to_text cmd]
      = Some script
    /\ popen_calls (trace (exec_command w cmd in_data sudoable self)) =
       [mkPopen (CmdLine (to_bytes script)) true (Some (resolve_executable w)) (cwd self)
                (Some (exec_stdin w self sudoable)) (Some PIPE) (Some PIPE) None]
    /\ Substring V script
    /\ Substring (py_str (remote_user (_play_context self))) script
    /\ Substring (cmd_to_text cmd) script.
Proof.
  intros HV Hne Hexe.
  eexists. split; [apply format_ENTER_VM|]. split.
  - apply exec_command_popen_calls; [assumption|].
    unfold exec_cmdline. rewrite HV, (truthy_Some V Hne).
    replace (to_text (cmd_to_bytes cmd)) with (cmd_to_text cmd) by now destruct cmd.
    unfold py_str at 1. now rewrite format_ENTER_VM.
  - repeat split; find_substring.
Qed.

Lemma exec_command_vm_script_witness :
  exists script,
    format ENTER_VM ["myvm"; "bob"; "pw"; "dir"] = Some script
    /\ popen_calls (trace (exec_command world_ok (CmdStr "dir") None true conn_myvm)) =
       [mkPopen (CmdLine (to_bytes script)) true
                (Some "/mnt/c/Windows/System32/WindowsPowerShell/v1.0/powershell.exe")
                None (Some PIPE) (Some PIPE) (Some PIPE) None]
    /\ Substring "myvm" script
    /\ Substring "bob" script
    /\ Substring "dir" script.
Proof.
  apply (exec_command_vm_script world_ok conn_myvm (CmdStr "dir") None true "myvm");
    [reflexivity | discriminate | reflexivity].
Defined.

Lemma is_substring_sound (x s : string) : is_substring x s = true -> Substring x s.
Proof.
  unfold is_substring. destruct (after_first x s) as [rest|] eqn:E; [|discriminate].
  intros _. destruct (after_first_sound _ _ _ E) as [pre ->]. now exists pre, rest.
Qed.

(** C3, as stated, fails: in the script of the scenario the four strings do
    not occur in the order myvm, bob, pw, dir.  The machine name is the last
    field of the template, so nothing of the rest follows it. *)
Lemma exec_command_myvm_claimed_order_fails :
  map popen_args
      (popen_calls (trace (exec_command world_ok (CmdStr "dir") None true conn_myvm)))
    = [CmdLine script_myvm]
  /\ ~ InOrder ["myvm"; "bob"; "pw"; "dir"] script_myvm.
Proof.
  split; [reflexivity|].
  intros H. apply in_order_complete in H. vm_compute in H. discriminate.
Qed.

(** C3, amended.  In the scenario (machine [myvm], user [bob], password [pw],
    command [dir]) the script handed to [Popen] contains the four strings, in
    the order of the template: pw, bob, dir, myvm. *)
Theorem exec_command_myvm_script_order (w : World) (self : Connection)
    (in_data : option bytes) (sudoable : bool) :
  vm_name (options self) = Some "myvm" ->
  remote_user (_play_context self) = Some "bob" ->
  password (_play_context self) = Some "pw" ->
  os_path_exists w (to_bytes (resolve_executable w)) = true ->
  map popen_args
      (popen_calls (trace (exec_command w (CmdStr "dir") in_data sudoable self)))
    = [CmdLine script_myvm]
  /\ Substring "myvm" script_myvm
  /\ Substring "bob" script_myvm
  /\ Substring "pw" script_myvm
  /\ Substring "dir" script_myvm
  /\ InOrder ["pw"; "bob"; "dir"; "myvm"] script_myvm.
Proof.
  intros Hvm Huser Hpw Hexe. split.
  - rewrite (exec_command_popen_calls w self (CmdStr "dir") in_data sudoable script_myvm Hexe);
      [reflexivity|].
    unfold exec_cmdline. rewrite Hvm, Huser, Hpw. reflexivity.
  - repeat split; try (apply is_substring_sound; vm_compute; reflexivity).
    apply in_order_sound. vm_compute. reflexivity.
Qed.

Lemma exec_command_myvm_script_order_witness :
  map popen_args
      (popen_calls (trace (exec_command world_ok (CmdStr "dir") None true conn_myvm)))
    = [CmdLine script_myvm]
  /\ Substring "myvm" script_myvm
  /\ Substring "bob" script_myvm
  /\ Substring "pw" script_myvm
  /\ Substring "dir" script_myvm
  /\ InOrder ["pw"; "bob"; "dir"; "myvm"] script_myvm.
Proof.
  apply (exec_command_myvm_script_order world_ok conn_myvm None true); reflexivity.
Defined.

(** Case analysis on everything a run asks the outside world or the
    configuration. *)
Ltac case_run_step :=
  first
    [ case_world_step
    | match goal with
      | |- context [negb (os_path_exists ?w ?p)] =>
          destruct (os_path_exists w p) eqn:?
      | |- context [if wants_pty ?s ?b then _ else _] =>
          destruct (wants_pty s b) eqn:?
      | |- context [if truthy ?x then _ else _] =>
          destruct (truthy x) eqn:?
      | |- context [match format ?t ?a with _ => _ end] =>
          destruct (format t a) eqn:?
      end ].

Ltac case_run := repeat (case_run_step; cbn).

Lemma wants_pty_not_sudoable (self : Connection) : wants_pty self false = false.
Proof. reflexivity. Qed.

Lemma exec_command_result (w : World) (self : Connection) (cmd : command)
    (in_data : option bytes) (sudoable : bool) (line : bytes) :
  os_path_exists w (to_bytes (resolve_executable w)) = true ->
  exec_cmdline self cmd = Some line ->
  spawn w (exec_popen w self sudoable line) = None ->
  result (exec_command w cmd in_data sudoable self) =
  inr (child w (exec_popen w self sudoable line) in_data).
Proof.
  intros Hexe Hline Hspawn.
  unfold exec_popen, exec_stdin, exec_cmdline, resolve_executable in *.
  destruct self as [conn wd bec pc opts]. unfold_run. cbn in *.
  destruct conn; cbn; rewrite Hexe; cbn.
  all: destruct (wants_pty _ _); cbn.
  all: destruct (truthy (vm_name opts)); cbn in *.
  all: try (destruct (format ENTER_VM _); cbn in * ).
  all: inversion Hline; subst; clear Hline.
  all: try (destruct (pty_openpty w) as [? | [? ?]]; cbn).
  all: rewrite Hspawn; cbn.
  all: case_world; reflexivity.
Qed.

(** C6. When a pty is wanted and [pty.openpty] fails, [exec_command] goes on
    as a call that never asks for a pty: same result, same [Popen] calls, the
    child reads from a pipe, no descriptor is closed; and once the child is
    spawned the call returns its return code, stdout and stderr. *)
Theorem exec_command_pty_failure_degrades (w : World) (self : Connection)
    (cmd : command) (in_data : option bytes) (sudoable : bool) (msg : string) :
  wants_pty self sudoable = true ->
  pty_openpty w = inl msg ->
  result (exec_command w cmd in_data sudoable self) =
    result (exec_command w cmd in_data false self)
  /\ popen_calls (trace (exec_command w cmd in_data sudoable self)) =
     popen_calls (trace (exec_command w cmd in_data false self))
  /\ Forall (fun a => popen_stdin a = Some PIPE)
            (popen_calls (trace (exec_command w cmd in_data sudoable self)))
  /\ closed_fds (trace (exec_command w cmd in_data sudoable self)) = []
  /\ (forall line,
        os_path_exists w (to_bytes (resolve_executable w)) = true ->
        exec_cmdline self cmd = Some line ->
        spawn w (mkPopen (CmdLine line) true (Some (resolve_executable w)) (cwd self)
                         (Some PIPE) (Some PIPE) (Some PIPE) None) = None ->
        result (exec_command w cmd in_data sudoable self) =
        inr (child w (mkPopen (CmdLine line) true (Some (resolve_executable w)) (cwd self)
                              (Some PIPE) (Some PIPE) (Some PIPE) None) in_data)).
Proof.
  intros Hwant Hpty.
  assert (Hstdin : exec_stdin w self sudoable = PIPE)
    by (unfold exec_stdin; now rewrite Hwant, Hpty).
  repeat split.
  - destruct self as [conn wd bec pc opts]. unfold_run. cbn.
    rewrite Hwant, wants_pty_not_sudoable, Hpty.
    destruct conn; cbn; case_run; reflexivity.
  - destruct self as [conn wd bec pc opts]. unfold_run. cbn.
    rewrite Hwant, wants_pty_not_sudoable, Hpty.
    destruct conn; cbn; case_run; reflexivity.
  - destruct self as [conn wd bec pc opts]. unfold_run. cbn.
    rewrite Hwant, Hpty.
    destruct conn; cbn; case_run; repeat constructor.
  - destruct self as [conn wd bec pc opts]. unfold_run. cbn.
    rewrite Hwant, Hpty.
    destruct conn; cbn; case_run; reflexivity.
  - intros line Hexe Hline Hspawn.
    rewrite (exec_command_result w self cmd in_data sudoable line Hexe Hline);
      unfold exec_popen; rewrite Hstdin; [reflexivity | assumption].
Qed.

Lemma exec_command_pty_failure_degrades_witness :
  result (exec_command world_no_pty (CmdStr "echo hi") None true conn_become) =
    inr (0%Z, "hi" ++ nl, "")
  /\ popen_calls (trace (exec_command world_no_pty (CmdStr "echo hi") None true conn_become)) =
     [mkPopen (CmdLine "echo hi") true
              (Some "/mnt/c/Windows/System32/WindowsPowerShell/v1.0/powershell.exe")
              None (Some PIPE) (Some PIPE) (Some PIPE) None].
Proof.
  destruct (exec_command_pty_failure_degrades world_no_pty conn_become (CmdStr "echo hi")
              None true "out of pty devices" eq_refl eq_refl)
    as [Hres [Hcalls [Hpipe [Hclosed Hok]]]].
  split.
  - apply (Hok "echo hi"); reflexivity.
  - rewrite Hcalls. reflexivity.
Defined.

(** C7, as stated, fails: when [Popen] raises, the exception leaves
    [exec_command] at once and neither side of the pty is closed. *)
Lemma exec_command_spawn_failure_leaks_pty :
  result (exec_command world_spawn_fails (CmdStr "whoami") None true conn_become) =
    inl (OSError "[Errno 13] Permission denied")
  /\ pty_fds (trace (exec_command world_spawn_fails (CmdStr "whoami") None true conn_become)) =
     [3; 4]%Z
  /\ closed_fds (trace (exec_command world_spawn_fails (CmdStr "whoami") None true conn_become)) =
     [].
Proof. repeat split. Qed.

(** The test [if master:] also skips a master side that is descriptor 0: only
    the slave side is closed then. *)
Example exec_command_master_zero_left_open :
  pty_fds (trace (exec_command world_master_zero (CmdStr "whoami") None true conn_become)) =
    [0; 4]%Z
  /\ closed_fds (trace (exec_command world_master_zero (CmdStr "whoami") None true conn_become)) =
     [4]%Z.
Proof. split; reflexivity. Qed.

(** C7, amended.  When a pty is opened with a master descriptor other than 0
    and the child is spawned, the slave side is closed right after the spawn
    and the master side right after [communicate] returns. *)
Theorem exec_command_pty_released (w : World) (self : Connection) (cmd : command)
    (in_data : option bytes) (sudoable : bool) (master slave : Z) (line : bytes) :
  wants_pty self sudoable = true ->
  pty_openpty w = inr (master, slave) ->
  master <> 0%Z ->
  os_path_exists w (to_bytes (resolve_executable w)) = true ->
  exec_cmdline self cmd = Some line ->
  spawn w (mkPopen (CmdLine line) true (Some (resolve_executable w)) (cwd self)
                   (Some slave) (Some PIPE) (Some PIPE) None) = None ->
  os_events (trace (exec_command w cmd in_data sudoable self)) =
  [ EvWhich "powershell.exe";
    EvPathExists (to_bytes (resolve_executable w));
    EvOpenPty (inr (master, slave));
    EvPopen (mkPopen (CmdLine line) true (Some (resolve_executable w)) (cwd self)
                     (Some slave) (Some PIPE) (Some PIPE) None);
    EvClose slave;
    EvCommunicate (mkPopen (CmdLine line) true (Some (resolve_executable w)) (cwd self)
                           (Some slave) (Some PIPE) (Some PIPE) None) in_data None;
    EvClose master ].
Proof.
  intros Hwant Hpty Hmaster Hexe Hline Hspawn.
  apply Z.eqb_neq in Hmaster.
  unfold exec_cmdline, resolve_executable in *.
  destruct self as [conn wd bec pc opts]. unfold_run. cbn in *.
  rewrite Hwant, Hpty.
  destruct conn; cbn; rewrite Hexe; cbn.
  all: destruct (truthy (vm_name opts)); cbn in *.
  all: try (destruct (format ENTER_VM _); cbn in * ).
  all: inversion Hline; subst; clear Hline.
  all: rewrite Hspawn; cbn.
  all: destruct (child w _ in_data) as [[rc out] err]; cbn.
  all: rewrite Hmaster; reflexivity.
Qed.

Lemma exec_command_pty_released_witness :
  os_events (trace (exec_command world_ok (CmdStr "whoami") None true conn_become)) =
  [ EvWhich "powershell.exe";
    EvPathExists "/mnt/c/Windows/System32/WindowsPowerShell/v1.0/powershell.exe";
    EvOpenPty (inr (3, 4)%Z);
    EvPopen (mkPopen (CmdLine "whoami") true
                     (Some "/mnt/c/Windows/System32/WindowsPowerShell/v1.0/powershell.exe")
                     None (Some 4%Z) (Some PIPE) (Some PIPE) None);
    EvClose 4;
    EvCommunicate (mkPopen (CmdLine "whoami") true
                     (Some "/mnt/c/Windows/System32/WindowsPowerShell/v1.0/powershell.exe")
                     None (Some 4%Z) (Some PIPE) (Some PIPE) None) None None;
    EvClose 3 ].
Proof.
  apply (exec_command_pty_released world_ok conn_become (CmdStr "whoami") None true
           3%Z 4%Z "whoami"); try reflexivity.
  discriminate.
Defined.

(** ** Claims about [put_file] and [fetch_file] *)

(** C4. When the source does not exist, [put_file] raises
    [AnsibleFileNotFound]; all it has asked the outside world by then is
    whether the path exists: no [Popen] call, no copy. *)
Theorem put_file_missing_source (w : World) (self : Connection) (in_path out_path : text) :
  os_path_exists w (to_bytes in_path) = false ->
  result (put_file w in_path out_path self) =
    inl (AnsibleFileNotFound ("file or module does not exist: " ++ to_native in_path))
  /\ popen_calls (trace (put_file w in_path out_path self)) = []
  /\ os_events (trace (put_file w in_path out_path self)) = [EvPathExists (to_bytes in_path)].
Proof.
  intros Hmissing.
  destruct self as [conn wd bec pc opts]. unfold_run. cbn.
  destruct conn; cbn; rewrite Hmissing; cbn; repeat split.
Qed.

Lemma put_file_missing_source_witness :
  result (put_file world_empty "/tmp/missing" "C:\dest" conn_local) =
    inl (AnsibleFileNotFound "file or module does not exist: /tmp/missing")
  /\ popen_calls (trace (put_file world_empty "/tmp/missing" "C:\dest" conn_local)) = []
  /\ os_events (trace (put_file world_empty "/tmp/missing" "C:\dest" conn_local)) =
     [EvPathExists "/tmp/missing"].
Proof.
  apply (put_file_missing_source world_empty conn_local "/tmp/missing" "C:\dest").
  reflexivity.
Defined.

(** C5: the code misses the claim.  [put_file] called with the same existing
    path as source and destination does not report the same-file error, though
    the handler for it is there: the copy reads from what [wslpath -w]
    printed, newline included, and that is not the path of the source. *)
Lemma put_file_same_path_not_same_file_error :
  truthy (vm_name (options conn_local)) = false
  /\ samefile world_tmp_a (to_bytes "/tmp/a") (to_bytes "/tmp/a") = true
  /\ copies (trace (put_file world_tmp_a "/tmp/a" "/tmp/a" conn_local)) =
     [("\\wsl.localhost\Ubuntu\tmp\a" ++ nl, "/tmp/a")]
  /\ result (put_file world_tmp_a "/tmp/a" "/tmp/a" conn_local) =
     inl (AnsibleError
            "failed to transfer file to /tmp/a: [Errno 2] No such file or directory").
Proof. repeat split. Qed.

(** The same with a helper that prints the very path it is given: the newline
    kept on this path alone hides the same file.  Stripped as on the machine
    path, the printed path would be the destination. *)
Example put_file_echo_helper_newline_hides_same_file :
  copies (trace (put_file world_echo "/tmp/a" "/tmp/a" conn_local)) =
    [("/tmp/a" ++ nl, "/tmp/a")]
  /\ result (put_file world_echo "/tmp/a" "/tmp/a" conn_local) =
     inl (AnsibleError
            "failed to transfer file to /tmp/a: [Errno 2] No such file or directory")
  /\ samefile world_echo (to_bytes (rstrip_nl (wslpath_stdout world_echo "/tmp/a")))
                         (to_bytes "/tmp/a") = true.
Proof. repeat split. Qed.

Lemma rstrip_nl_newline (s : string) : rstrip_nl (s ++ nl) = rstrip_nl s.
Proof.
  induction s as [|c s IH]; [reflexivity|].
  change (String c s ++ nl) with (String c (s ++ nl)).
  unfold rstrip_nl; fold rstrip_nl. now rewrite IH.
Qed.

Lemma rstrip_nl_cons (c : ascii) (s : string) :
  rstrip_nl (String c s) =
  match rstrip_nl s with
  | EmptyString => if Ascii.eqb c newline then EmptyString else String c EmptyString
  | r => String c r
  end.
Proof. reflexivity. Qed.

Lemma rstrip_nl_trailing (s : string) : exists k, s = rstrip_nl s ++ newlines k.
Proof.
  induction s as [|c s [k Hk]]; [now exists 0%nat|].
  rewrite rstrip_nl_cons. destruct (rstrip_nl s) as [|d r] eqn:E.
  - destruct (Ascii.eqb_spec c newline) as [->|Hc].
    + exists (S k). now rewrite Hk at 1.
    + exists k. now rewrite Hk at 1.
  - exists k. now rewrite Hk at 1.
Qed.

Lemma rstrip_nl_no_newline (s : string) : ends_with_newline (rstrip_nl s) = false.
Proof.
  induction s as [|c s IH]; [reflexivity|].
  rewrite rstrip_nl_cons. destruct (rstrip_nl s) as [|d r] eqn:E.
  - destruct (Ascii.eqb_spec c newline) as [->|Hc]; [reflexivity|].
    unfold ends_with_newline. now apply Ascii.eqb_neq.
  - exact IH.
Qed.

(** C10. Once the source exists and the helper has run, [put_file] works with
    what the helper printed, not with the path it was given.  With a machine
    configured, the copy script embeds, between the quotes of [-Path], the
    output without its trailing newlines: what is embedded does not end with
    a newline, and the output is the embedded path followed by newlines only.
    Without a machine, [shutil.copyfile] reads from the output as it is,
    trailing newline included. *)
Theorem put_file_uses_translated_path (w : World) (self : Connection)
    (in_path out_path : text) :
  os_path_exists w (to_bytes in_path) = true ->
  spawn w (wslpath_popen in_path) = None ->
  (truthy (vm_name (options self)) = true ->
   exists script stripped k,
     stripped = rstrip_nl (to_text (wslpath_stdout w in_path))
     /\ wslpath_stdout w in_path = stripped ++ newlines k
     /\ ends_with_newline stripped = false
     /\ format COPY_FILE
          [py_str (vm_name (options self)); py_str (remote_user (_play_context self));
           py_str (password (_play_context self)); stripped; to_text out_path] = Some script
     /\ Substring ("-Path '" ++ stripped ++ "' -Destination '") script
     /\ popen_calls (trace (put_file w in_path out_path self)) =
        [wslpath_popen in_path; copy_popen w self script]
     /\ copies (trace (put_file w in_path out_path self)) = [])
  /\ (truthy (vm_name (options self)) = false ->
      popen_calls (trace (put_file w in_path out_path self)) = [wslpath_popen in_path]
      /\ copies (trace (put_file w in_path out_path self)) =
         [(to_bytes (wslpath_stdout w in_path), to_bytes out_path)]).
Proof.
  intros Hexists Hspawn.
  split; intros Hvm.
  - pose proof (format_COPY_FILE
                  (py_str (vm_name (options self)))
                  (py_str (remote_user (_play_context self)))
                  (py_str (password (_play_context self)))
                  (rstrip_nl (to_text (wslpath_stdout w in_path))) (to_text out_path)) as Hf.
    destruct (rstrip_nl_trailing (to_text (wslpath_stdout w in_path))) as [k Hk].
    match type of Hf with _ = Some ?s => exists s end.
    exists (rstrip_nl (to_text (wslpath_stdout w in_path))), k.
    split; [reflexivity|]. split; [exact Hk|].
    split; [apply rstrip_nl_no_newline|]. split; [exact Hf|]. clear Hf Hk. split.
    + exists (nl ++ "$secpass = ConvertTo-SecureString -AsPlainText -Force -String '"
                ++ py_str (password (_play_context self))
                ++ "'" ++ nl ++ "$cred = [PSCredential]::new('"
                ++ py_str (remote_user (_play_context self))
                ++ "', $secpass)" ++ nl ++ "$s = New-PSSession -VMName '"
                ++ py_str (vm_name (options self))
                ++ "' -Credential $cred" ++ nl ++ "Copy-Item -ToSession $s ").
      eexists. rewrite !append_assoc_s. reflexivity.
    + unfold wslpath_stdout, wslpath_popen, copy_popen, resolve_executable in *.
      destruct self as [conn wd bec pc opts]. cbn [options _play_context cwd] in *.
      unfold_run. cbn.
      destruct conn; cbn; rewrite Hexists; cbn; rewrite Hspawn; cbn.
      all: destruct (child w _ None) as [[rc out] err]; cbn.
      all: rewrite Hvm; cbn; rewrite format_COPY_FILE; cbn.
      all: case_world; split; reflexivity.
  - unfold wslpath_stdout, wslpath_popen, copy_popen, resolve_executable in *.
    destruct self as [conn wd bec pc opts]. cbn [options _play_context cwd] in *.
    unfold_run. cbn.
    destruct conn; cbn; rewrite Hexists; cbn; rewrite Hspawn; cbn.
    all: destruct (child w _ None) as [[rc out] err]; cbn.
    all: rewrite Hvm; cbn.
    all: case_world; split; reflexivity.
Qed.

(** On the machine path the helper printed [C:\tmp\a] and a newline, and the
    script has [-Path 'C:\tmp\a']; on the direct path the copy reads from the
    printed path with its newline. *)
Lemma put_file_uses_translated_path_witness :
  (exists script stripped k,
     stripped = "C:\tmp\a"
     /\ wslpath_stdout world_copy_denied "/tmp/a" = stripped ++ newlines k
     /\ ends_with_newline stripped = false
     /\ format COPY_FILE ["myvm"; "bob"; "pw"; stripped; "C:\dest\a"] = Some script
     /\ Substring ("-Path '" ++ stripped ++ "' -Destination '") script
     /\ popen_calls (trace (put_file world_copy_denied "/tmp/a" "C:\dest\a" conn_myvm)) =
        [wslpath_popen "/tmp/a"; copy_popen world_copy_denied conn_myvm script]
     /\ copies (trace (put_file world_copy_denied "/tmp/a" "C:\dest\a" conn_myvm)) = [])
  /\ popen_calls (trace (put_file world_tmp_a "/tmp/a" "/tmp/b" conn_local)) =
     [wslpath_popen "/tmp/a"]
  /\ copies (trace (put_file world_tmp_a "/tmp/a" "/tmp/b" conn_local)) =
     [("\\wsl.localhost\Ubuntu\tmp\a" ++ nl, "/tmp/b")].
Proof.
  split.
  - apply (put_file_uses_translated_path world_copy_denied conn_myvm "/tmp/a" "C:\dest\a");
      reflexivity.
  - apply (put_file_uses_translated_path world_tmp_a conn_local "/tmp/a" "/tmp/b");
      reflexivity.
Defined.

(** C8. [fetch_file] does to the outside world exactly what [put_file] does
    with the same two arguments, ends the same way and leaves the connection
    in the same state; only the log has one more line. *)
Theorem fetch_file_as_put_file (w : World) (self : Connection) (a b : text) :
  result (fetch_file w a b self) = result (put_file w a b self)
  /\ final (fetch_file w a b self) = final (put_file w a b self)
  /\ os_events (trace (fetch_file w a b self)) = os_events (trace (put_file w a b self)).
Proof.
  destruct self as [conn wd bec pc opts]. unfold_run. cbn.
  destruct conn; cbn; case_run; repeat split.
Qed.

(** ** The [operation_timeout] option *)

Lemma exec_command_timeout_run (w : World) (self : Connection) (t : Z)
    (cmd : command) (in_data : option bytes) (sudoable : bool) :
  exec_command w cmd in_data sudoable (with_operation_timeout t self) =
  match exec_command w cmd in_data sudoable self with
  | (r, self', tr) => (r, with_operation_timeout t self', tr)
  end.
Proof.
  destruct self as [conn wd bec pc [addr vm user pw t0 conf pip]].
  unfold with_operation_timeout, set_operation_timeout. cbn [options _connected cwd
    become _play_context opt_remote_addr vm_name opt_remote_user remote_password
    configuration_name pipelining].
  assert (E : forall c,
             wants_pty (mkConnection c wd bec pc (mkOptions addr vm user pw t conf pip))
                       sudoable =
             wants_pty (mkConnection c wd bec pc (mkOptions addr vm user pw t0 conf pip))
                       sudoable) by reflexivity.
  unfold_run. cbn. rewrite !E.
  destruct conn; cbn; rewrite ?E; case_run; reflexivity.
Qed.

Lemma put_file_timeout_run (w : World) (self : Connection) (t : Z)
    (in_path out_path : text) :
  put_file w in_path out_path (with_operation_timeout t self) =
  match put_file w in_path out_path self with
  | (r, self', tr) => (r, with_operation_timeout t self', tr)
  end.
Proof.
  destruct self as [conn wd bec pc [addr vm user pw t0 conf pip]].
  unfold with_operation_timeout, set_operation_timeout. cbn [options _connected cwd
    become _play_context opt_remote_addr vm_name opt_remote_user remote_password
    configuration_name pipelining].
  unfold_run. cbn.
  destruct conn; cbn; case_run; reflexivity.
Qed.

Lemma exec_command_waits_forever (w : World) (self : Connection)
    (cmd : command) (in_data : option bytes) (sudoable : bool) :
  Forall (eq None) (communicate_timeouts (trace (exec_command w cmd in_data sudoable self))).
Proof.
  destruct self as [conn wd bec pc opts]. unfold_run. cbn.
  destruct conn; cbn; case_run; repeat constructor.
Qed.

Lemma put_file_waits_forever (w : World) (self : Connection) (in_path out_path : text) :
  Forall (eq None) (communicate_timeouts (trace (put_file w in_path out_path self))).
Proof.
  destruct self as [conn wd bec pc opts]. unfold_run. cbn.
  destruct conn; cbn; case_run; repeat constructor.
Qed.

(** C9. Changing [operation_timeout], and nothing else, changes nothing in a
    call of [exec_command] or [put_file]: same result, same trace (log
    included), same final connection up to the option itself; and every
    [communicate] waits without a timeout. *)
Theorem operation_timeout_not_applied (w : World) (self : Connection) (t : Z) :
  (forall cmd in_data sudoable,
      result (exec_command w cmd in_data sudoable (with_operation_timeout t self)) =
        result (exec_command w cmd in_data sudoable self)
      /\ trace (exec_command w cmd in_data sudoable (with_operation_timeout t self)) =
         trace (exec_command w cmd in_data sudoable self)
      /\ final (exec_command w cmd in_data sudoable (with_operation_timeout t self)) =
         with_operation_timeout t (final (exec_command w cmd in_data sudoable self))
      /\ Forall (eq None)
                (communicate_timeouts (trace (exec_command w cmd in_data sudoable self))))
  /\ (forall in_path out_path,
         result (put_file w in_path out_path (with_operation_timeout t self)) =
           result (put_file w in_path out_path self)
         /\ trace (put_file w in_path out_path (with_operation_timeout t self)) =
            trace (put_file w in_path out_path self)
         /\ final (put_file w in_path out_path (with_operation_timeout t self)) =
            with_operation_timeout t (final (put_file w in_path out_path self))
         /\ Forall (eq None)
                   (communicate_timeouts (trace (put_file w in_path out_path self)))).
Proof.
  split.
  - intros cmd in_data sudoable.
    rewrite exec_command_timeout_run.
    pose proof (exec_command_waits_forever w self cmd in_data sudoable) as Hwait.
    destruct (exec_command w cmd in_data sudoable self) as [[r s] tr].
    repeat split. exact Hwait.
  - intros in_path out_path.
    rewrite put_file_timeout_run.
    pose proof (put_file_waits_forever w self in_path out_path) as Hwait.
    destruct (put_file w in_path out_path self) as [[r s] tr].
    repeat split. exact Hwait.
Qed.

(** * Further properties of the plugin *)

(** ** The session *)

(** X1. [_connect] marks the session connected and is idempotent: a second
    call changes nothing and logs nothing.  [close] after it only clears the
    flag, without touching the outside world. *)
Theorem connect_idempotent (self : Connection) :
  result (_connect self) = inr tt
  /\ final (_connect self) = set_connected true self
  /\ _connect (final (_connect self)) = (inr tt, final (_connect self), [])
  /\ final (close (final (_connect self))) = set_connected false self
  /\ trace (close (final (_connect self))) = [].
Proof.
  destruct self as [conn wd bec pc opts]. unfold close. unfold_run.
  destruct conn; cbn; repeat split.
Qed.

(** X2. Whatever happens during the call (also when it raises),
    [exec_command], [put_file] and [fetch_file] leave the session connected
    and every other field of the connection as it was. *)
Theorem methods_leave_session_connected (w : World) (self : Connection) :
  (forall cmd in_data sudoable,
      final (exec_command w cmd in_data sudoable self) = set_connected true self)
  /\ (forall a b, final (put_file w a b self) = set_connected true self)
  /\ (forall a b, final (fetch_file w a b self) = set_connected true self).
Proof.
  destruct self as [conn wd bec pc opts]. repeat split; intros.
  all: unfold_run; cbn; destruct conn; cbn; case_run; reflexivity.
Qed.

(** X3. When PowerShell is not found, [exec_command] raises the
    executable-not-found [AnsibleError] having only looked the executable up:
    no pty is opened and no child is started. *)
Theorem exec_command_executable_missing (w : World) (self : Connection) (cmd : command)
    (in_data : option bytes) (sudoable : bool) :
  os_path_exists w (to_bytes (resolve_executable w)) = false ->
  result (exec_command w cmd in_data sudoable self) =
    inl (executable_missing (resolve_executable w))
  /\ os_events (trace (exec_command w cmd in_data sudoable self)) =
     [EvWhich "powershell.exe"; EvPathExists (to_bytes (resolve_executable w))].
Proof.
  intros Hmissing. unfold resolve_executable, executable_missing in *.
  destruct self as [conn wd bec pc opts]. unfold_run. cbn.
  destruct conn; cbn; rewrite Hmissing; cbn; split; reflexivity.
Qed.

Lemma exec_command_executable_missing_witness :
  result (exec_command world_empty (CmdStr "dir") None true conn_become) =
    inl (AnsibleError "failed to find the executable specified powershell.exe. Please verify if the executable exists and re-try.")
  /\ os_events (trace (exec_command world_empty (CmdStr "dir") None true conn_become)) =
     [EvWhich "powershell.exe"; EvPathExists "powershell.exe"].
Proof.
  apply (exec_command_executable_missing world_empty conn_become (CmdStr "dir") None true).
  reflexivity.
Defined.

(** ** More on [exec_command] *)

(** X4. When the child is spawned, [exec_command] returns exactly what
    [communicate] collected, feeds it [in_data] in its one [communicate] call
    and logs stdout and stderr at level v. *)
Theorem exec_command_returns_child_output (w : World) (self : Connection)
    (cmd : command) (in_data : option bytes) (sudoable : bool) (line : bytes) :
  os_path_exists w (to_bytes (resolve_executable w)) = true ->
  exec_cmdline self cmd = Some line ->
  spawn w (exec_popen w self sudoable line) = None ->
  result (exec_command w cmd in_data sudoable self) =
    inr (child w (exec_popen w self sudoable line) in_data)
  /\ communicate_calls (trace (exec_command w cmd in_data sudoable self)) =
     [(exec_popen w self sudoable line, in_data)]
  /\ logged lvl_v (trace (exec_command w cmd in_data sudoable self)) =
     [to_text (snd (fst (child w (exec_popen w self sudoable line) in_data)));
      to_text (snd (child w (exec_popen w self sudoable line) in_data))].
Proof.
  intros Hexe Hline Hspawn. split; [now apply exec_command_result|].
  unfold exec_popen, exec_stdin, exec_cmdline, resolve_executable in *.
  destruct self as [conn wd bec pc opts]. unfold_run. cbn in *.
  destruct conn; cbn; rewrite Hexe; cbn.
  all: destruct (wants_pty _ _); cbn.
  all: destruct (truthy (vm_name opts)); cbn in *.
  all: try (destruct (format ENTER_VM _); cbn in * ).
  all: inversion Hline; subst; clear Hline.
  all: try (destruct (pty_openpty w) as [? | [? ?]]; cbn).
  all: rewrite Hspawn; cbn.
  all: case_world; split; reflexivity.
Qed.

Lemma exec_command_returns_child_output_witness :
  result (exec_command world_ok (CmdStr "echo hi") (Some "in") false conn_local) =
    inr (0%Z, "hi" ++ nl, "")
  /\ communicate_calls (trace (exec_command world_ok (CmdStr "echo hi") (Some "in") false conn_local)) =
     [(exec_popen world_ok conn_local false "echo hi", Some "in")]
  /\ logged lvl_v (trace (exec_command world_ok (CmdStr "echo hi") (Some "in") false conn_local)) =
     ["hi" ++ nl; ""].
Proof.
  apply (exec_command_returns_child_output world_ok conn_local (CmdStr "echo hi")
           (Some "in") false "echo hi"); reflexivity.
Defined.

(** X5. [exec_command] never calls [Popen] more than once (no retry), never
    waits for more children than it started and never copies a file. *)
Theorem exec_command_effect_bounds (w : World) (self : Connection) (cmd : command)
    (in_data : option bytes) (sudoable : bool) :
  (length (popen_calls (trace (exec_command w cmd in_data sudoable self))) <= 1)%nat
  /\ (length (communicate_calls (trace (exec_command w cmd in_data sudoable self)))
      <= length (popen_calls (trace (exec_command w cmd in_data sudoable self))))%nat
  /\ copies (trace (exec_command w cmd in_data sudoable self)) = [].
Proof.
  destruct self as [conn wd bec pc opts]. unfold_run. cbn.
  destruct conn; cbn; case_run; repeat split; cbn; lia.
Qed.

(** X6. [exec_command] calls [pty.openpty] at most once, and it does so
    exactly when PowerShell was found, the call is sudoable, a become plugin
    expects a prompt and pipelining is off. *)
Theorem exec_command_openpty_attempts (w : World) (self : Connection) (cmd : command)
    (in_data : option bytes) (sudoable : bool) :
  openpty_attempts (trace (exec_command w cmd in_data sudoable self)) =
  if os_path_exists w (to_bytes (resolve_executable w))
     && sudoable
     && match become self with Some b => expect_prompt b | None => false end
     && negb (pipelining (options self))
  then 1%nat else 0%nat.
Proof.
  unfold resolve_executable.
  assert (E : wants_pty self sudoable =
              sudoable && match become self with Some b => expect_prompt b | None => false end
              && negb (pipelining (options self))) by reflexivity.
  rewrite <- !andb_assoc, (andb_assoc sudoable), <- E. clear E.
  destruct self as [conn wd bec pc opts]. unfold_run. cbn.
  destruct conn; cbn; case_run; reflexivity.
Qed.

(** X7. With a virtual machine configured, [exec_command] writes the whole
    script to the log at level vv, and the script carries the password between
    single quotes exactly as configured, without escaping. *)
Theorem exec_command_logs_script_with_password (w : World) (self : Connection)
    (cmd : command) (in_data : option bytes) (sudoable : bool) (line : bytes) :
  truthy (vm_name (options self)) = true ->
  os_path_exists w (to_bytes (resolve_executable w)) = true ->
  exec_cmdline self cmd = Some line ->
  In (to_text line) (logged lvl_vv (trace (exec_command w cmd in_data sudoable self)))
  /\ Substring ("-String '" ++ py_str (password (_play_context self)) ++ "'") (to_text line).
Proof.
  intros Hvm Hexe Hline.
  unfold exec_cmdline, resolve_executable in *. rewrite Hvm in Hline.
  rewrite format_ENTER_VM in Hline. cbn in Hline. inversion Hline; subst; clear Hline.
  split.
  - destruct self as [conn wd bec pc opts]. unfold_run. cbn in *.
    destruct conn; cbn; rewrite Hexe; cbn.
    all: destruct (wants_pty _ _); cbn.
    all: rewrite Hvm; cbn; rewrite format_ENTER_VM; cbn.
    all: case_world; cbn; auto 10.
  - exists (nl ++ "# $WarningPreference = 'SilentlyContinue'" ++ nl
            ++ "$secpass = ConvertTo-SecureString -AsPlainText -Force ").
    eexists. rewrite !append_assoc_s. reflexivity.
Qed.

Lemma exec_command_logs_script_with_password_witness :
  In script_myvm (logged lvl_vv (trace (exec_command world_ok (CmdStr "dir") None true conn_myvm)))
  /\ Substring "-String 'pw'" script_myvm.
Proof.
  apply (exec_command_logs_script_with_password world_ok conn_myvm (CmdStr "dir") None true
           script_myvm); reflexivity.
Defined.

(** X8. When [Popen] raises in [exec_command], the [OSError] reaches the
    caller as it is (not wrapped in an [AnsibleError]); the child is never
    waited for and no descriptor is closed. *)
Theorem exec_command_spawn_error_propagates (w : World) (self : Connection)
    (cmd : command) (in_data : option bytes) (sudoable : bool) (line : bytes) (msg : string) :
  os_path_exists w (to_bytes (resolve_executable w)) = true ->
  exec_cmdline self cmd = Some line ->
  spawn w (exec_popen w self sudoable line) = Some msg ->
  result (exec_command w cmd in_data sudoable self) = inl (OSError msg)
  /\ communicate_calls (trace (exec_command w cmd in_data sudoable self)) = []
  /\ closed_fds (trace (exec_command w cmd in_data sudoable self)) = [].
Proof.
  intros Hexe Hline Hspawn.
  unfold exec_popen, exec_stdin, exec_cmdline, resolve_executable in *.
  destruct self as [conn wd bec pc opts]. unfold_run. cbn in *.
  destruct conn; cbn; rewrite Hexe; cbn.
  all: destruct (wants_pty _ _); cbn.
  all: destruct (truthy (vm_name opts)); cbn in *.
  all: try (destruct (format ENTER_VM _); cbn in * ).
  all: inversion Hline; subst; clear Hline.
  all: try (destruct (pty_openpty w) as [? | [? ?]]; cbn).
  all: rewrite Hspawn; cbn.
  all: repeat split.
Qed.

Lemma exec_command_spawn_error_propagates_witness :
  result (exec_command world_spawn_fails (CmdStr "whoami") None false conn_local) =
    inl (OSError "[Errno 13] Permission denied")
  /\ communicate_calls (trace (exec_command world_spawn_fails (CmdStr "whoami") None false conn_local)) = []
  /\ closed_fds (trace (exec_command world_spawn_fails (CmdStr "whoami") None false conn_local)) = [].
Proof.
  apply (exec_command_spawn_error_propagates world_spawn_fails conn_local (CmdStr "whoami")
           None false "whoami"); reflexivity.
Defined.

(** ** More on [put_file] *)



(** X9. On the virtual-machine path [put_file] succeeds once the copy script
    is spawned, whatever the script's return code and output: both children
    are waited for, the output of the second is only logged, and no local copy
    is made. *)
Theorem put_file_vm_ignores_exit_status (w : World) (self : Connection)
    (in_path out_path : text) (script : string) :
  os_path_exists w (to_bytes in_path) = true ->
  spawn w (wslpath_popen in_path) = None ->
  truthy (vm_name (options self)) = true ->
  format COPY_FILE
    [py_str (vm_name (options self)); py_str (remote_user (_play_context self));
     py_str (password (_play_context self));
     rstrip_nl (to_text (wslpath_stdout w in_path)); to_text out_path] = Some script ->
  spawn w (copy_popen w self script) = None ->
  result (put_file w in_path out_path self) = inr tt
  /\ communicate_calls (trace (put_file w in_path out_path self)) =
     [(wslpath_popen in_path, None); (copy_popen w self script, None)]
  /\ logged lvl_v (trace (put_file w in_path out_path self)) =
     [to_text (snd (fst (child w (copy_popen w self script) None)));
      to_text (snd (child w (copy_popen w self script) None))]
  /\ copies (trace (put_file w in_path out_path self)) = [].
Proof.
  intros Hexists Hspawn Hvm Hscript Hcopy.
  unfold wslpath_stdout, wslpath_popen, copy_popen, resolve_executable in *.
  destruct self as [conn wd bec pc opts]. unfold_run. cbn in *.
  destruct conn; cbn; rewrite Hexists; cbn; rewrite Hspawn; cbn.
  all: destruct (child w _ None) as [[rc out] err] eqn:Hchild; cbn in *.
  all: rewrite Hvm; cbn; rewrite Hscript; cbn; rewrite Hcopy; cbn.
  all: destruct (child w {| popen_args := CmdLine _ |} None) as [[rc2 out2] err2]; cbn.
  all: repeat split.
Qed.

Lemma put_file_vm_ignores_exit_status_witness :
  result (put_file world_copy_denied "/tmp/a" "C:\dest\a" conn_myvm) = inr tt
  /\ logged lvl_v (trace (put_file world_copy_denied "/tmp/a" "C:\dest\a" conn_myvm)) =
     [""; "Copy-Item : Access is denied"].
Proof.
  destruct (put_file_vm_ignores_exit_status world_copy_denied conn_myvm "/tmp/a" "C:\dest\a"
              (py_str (format COPY_FILE ["myvm"; "bob"; "pw"; "C:\tmp\a"; "C:\dest\a"]))
              eq_refl eq_refl eq_refl eq_refl eq_refl)
    as [Hres [_ [Hlog _]]].
  split; [exact Hres | exact Hlog].
Defined.



(** X11. On the direct-copy path, when source and destination are not the
    same file, [put_file] succeeds if the copy does and otherwise raises the
    transfer [AnsibleError] carrying the destination and the message of the
    [OSError]; the outside world sees the existence test, the helper and one
    copy. *)
Theorem put_file_direct_outcomes (w : World) (self : Connection)
    (in_path out_path : text) :
  os_path_exists w (to_bytes in_path) = true ->
  spawn w (wslpath_popen in_path) = None ->
  truthy (vm_name (options self)) = false ->
  samefile w (to_bytes (wslpath_stdout w in_path)) (to_bytes out_path) = false ->
  result (put_file w in_path out_path self) =
    match copy_contents w (to_bytes (wslpath_stdout w in_path)) (to_bytes out_path) with
    | None => inr tt
    | Some msg =>
        inl (AnsibleError ("failed to transfer file to " ++ to_native out_path ++ ": "
                             ++ to_native msg))
    end
  /\ os_events (trace (put_file w in_path out_path self)) =
     [EvPathExists (to_bytes in_path);
      EvPopen (wslpath_popen in_path);
      EvCommunicate (wslpath_popen in_path) None None;
      EvCopyfile (to_bytes (wslpath_stdout w in_path)) (to_bytes out_path)].
Proof.
  intros Hexists Hspawn Hvm Hsame.
  unfold wslpath_stdout, wslpath_popen in *.
  destruct self as [conn wd bec pc opts]. unfold_run. cbn in *.
  destruct conn; cbn; rewrite Hexists; cbn; rewrite Hspawn; cbn.
  all: destruct (child w _ None) as [[rc out] err]; cbn in *.
  all: rewrite Hvm; cbn; rewrite Hsame; cbn.
  all: destruct (copy_contents w _ _); cbn; split; reflexivity.
Qed.

Lemma put_file_direct_outcomes_witness :
  result (put_file world_read_only "/tmp/a" "/mnt/c/dest" conn_local) =
    inl (AnsibleError "failed to transfer file to /mnt/c/dest: [Errno 30] Read-only file system")
  /\ os_events (trace (put_file world_read_only "/tmp/a" "/mnt/c/dest" conn_local)) =
     [EvPathExists "/tmp/a";
      EvPopen (wslpath_popen "/tmp/a");
      EvCommunicate (wslpath_popen "/tmp/a") None None;
      EvCopyfile ("C:\tmp\a" ++ nl) "/mnt/c/dest"].
Proof.
  apply (put_file_direct_outcomes world_read_only conn_local "/tmp/a" "/mnt/c/dest");
    reflexivity.
Defined.

(** X12. When the translation helper cannot be started, the [OSError] of
    [Popen] leaves [put_file] as it is (the [try] only covers the copy), and
    nothing is copied. *)
Theorem put_file_helper_spawn_error_propagates (w : World) (self : Connection)
    (in_path out_path : text) (msg : string) :
  os_path_exists w (to_bytes in_path) = true ->
  spawn w (wslpath_popen in_path) = Some msg ->
  result (put_file w in_path out_path self) = inl (OSError msg)
  /\ os_events (trace (put_file w in_path out_path self)) =
     [EvPathExists (to_bytes in_path); EvPopen (wslpath_popen in_path)].
Proof.
  intros Hexists Hspawn. unfold wslpath_popen in *.
  destruct self as [conn wd bec pc opts]. unfold_run. cbn in *.
  destruct conn; cbn; rewrite Hexists; cbn; rewrite Hspawn; cbn; split; reflexivity.
Qed.

Lemma put_file_helper_spawn_error_propagates_witness :
  result (put_file world_no_wslpath "/tmp/a" "/tmp/b" conn_local) =
    inl (OSError "[Errno 2] No such file or directory: 'wslpath'")
  /\ os_events (trace (put_file world_no_wslpath "/tmp/a" "/tmp/b" conn_local)) =
     [EvPathExists "/tmp/a"; EvPopen (wslpath_popen "/tmp/a")].
Proof.
  apply (put_file_helper_spawn_error_propagates world_no_wslpath conn_local "/tmp/a" "/tmp/b");
    reflexivity.
Defined.

(** X13. [put_file] starts at most two children and makes at most one copy;
    its children get no standard input, and it never opens a pty or closes a
    descriptor. *)
Theorem put_file_effect_bounds (w : World) (self : Connection) (in_path out_path : text) :
  (length (popen_calls (trace (put_file w in_path out_path self))) <= 2)%nat
  /\ (length (copies (trace (put_file w in_path out_path self))) <= 1)%nat
  /\ Forall (fun a => popen_stdin a = None)
            (popen_calls (trace (put_file w in_path out_path self)))
  /\ openpty_attempts (trace (put_file w in_path out_path self)) = 0%nat
  /\ closed_fds (trace (put_file w in_path out_path self)) = [].
Proof.
  destruct self as [conn wd bec pc opts]. unfold_run. cbn.
  destruct conn; cbn; case_run; repeat split; cbn; try lia; repeat constructor.
Qed.

(** ** Trailing newlines *)

Lemma rstrip_nl_String (c : ascii) (s : string) :
  rstrip_nl (String c s) =
  match rstrip_nl s with
  | EmptyString => if Ascii.eqb c newline then EmptyString else String c EmptyString
  | r => String c r
  end.
Proof. reflexivity. Qed.

(** X14. [rstrip] of newlines, as used on the helper's output: the result is
    the input without a (possibly empty) run of newlines at its end, does not
    end with a newline, and stripping again changes nothing. *)
Theorem rstrip_nl_spec (s : string) :
  (exists k, s = rstrip_nl s ++ newlines k)
  /\ ends_with_newline (rstrip_nl s) = false
  /\ rstrip_nl (rstrip_nl s) = rstrip_nl s.
Proof.
  induction s as [|c s [[k Hk] [Hend Hidem]]].
  - repeat split. now exists 0%nat.
  - rewrite rstrip_nl_String.
    destruct (rstrip_nl s) as [|d r] eqn:E.
    + destruct (Ascii.eqb_spec c newline) as [->|Hc].
      * repeat split. exists (S k). now rewrite Hk at 1.
      * repeat split.
        -- exists k. now rewrite Hk at 1.
        -- unfold ends_with_newline. now apply Ascii.eqb_neq.
        -- rewrite rstrip_nl_String. change (rstrip_nl "") with "".
           now apply Ascii.eqb_neq in Hc; rewrite Hc.
    + repeat split.
      * exists k. now rewrite Hk at 1.
      * exact Hend.
      * rewrite rstrip_nl_String, Hidem. reflexivity.
Qed.
